(** * Assignment & quiz generator: a shallow embedding of [QuizGenerator]

    The development follows [assignment-generator.py].  The class
    [QuizGenerator] has four methods; each of them is embedded below under
    its own name:

    - [extract_key_phrases]          (normalise, split, filter, deduplicate)
    - [generate_assignment_questions] (two essay prompts)
    - [generate_quiz_questions]       (one or three multiple-choice questions)
    - [generate_content]             (the pipeline)

    Modelling choices.

    - A Python [str] is a [list ascii].  The character tables ([str.lower],
      [str.isspace], the regular-expression classes [\w] and [\s],
      [str.title]) are those of CPython for the code points below 128; the
      embedding covers ASCII text, and a code point of the upper half is
      neither a word character nor white space.
    - The module [random] is used through its global generator.  The
      generator is an explicit state of an abstract type [rng], and its one
      primitive [randbelow n] (CPython's [Random._randbelow]) is a parameter
      whose contract is [randbelow n g < n] for [0 < n].  [random.choice],
      [random.sample] and [random.shuffle] are written out over it as in
      CPython's [random.py].
    - Indexing out of range, [random.choice] of an empty sequence and
      [list.index] of an absent element raise in Python; the embedding
      threads the generator and these failures through the monad [M].
    - [list(set(key_words))] enumerates a hash set of strings, whose order
      is fixed by the interpreter's string hashing and not by the program.
      The enumeration is the parameter [set_order].
    - A quiz question is a dict with the four fixed keys [question],
      [options], [correct] and [explanation]: the record [quiz_question]. *)

From Stdlib Require Import Ascii String DecimalString.
From stdpp Require Import base list strings.

Local Open Scope list_scope.

(** ** Python strings *)
Module PyStr.

Abbreviation pystr := (list ascii).

(** A literal. *)
Definition py (s : string) : pystr := list_ascii_of_string s.

Definition code (c : ascii) : nat := nat_of_ascii c.

Definition in_range (lo hi : nat) (c : ascii) : bool :=
  (lo <=? code c) && (code c <=? hi).

(** [str.isspace] on one character, which is also the class [\s]:
    TAB, LF, VT, FF, CR, the separators FS, GS, RS, US, and the space. *)
Definition isspace (c : ascii) : bool :=
  in_range 9 13 c || in_range 28 32 c.

Definition isupper (c : ascii) : bool := in_range 65 90 c.
Definition islower (c : ascii) : bool := in_range 97 122 c.
Definition isdigit (c : ascii) : bool := in_range 48 57 c.

(** Cased characters: the letters. *)
Definition iscased (c : ascii) : bool := isupper c || islower c.

(** The class [\w]: alphanumeric or underscore. *)
Definition isword (c : ascii) : bool :=
  isdigit c || iscased c || (code c =? 95).

Definition lower_char (c : ascii) : ascii :=
  if isupper c then ascii_of_nat (code c + 32) else c.

Definition upper_char (c : ascii) : ascii :=
  if islower c then ascii_of_nat (code c - 32) else c.

(** [s.lower()] *)
Definition lower (s : pystr) : pystr := map lower_char s.

(** [s.title()]: a character that follows a cased character is lowered,
    any other character is put in title case. *)
Fixpoint title_from (previous_is_cased : bool) (s : pystr) : pystr :=
  match s with
  | [] => []
  | c :: r =>
      (if previous_is_cased then lower_char c else upper_char c)
        :: title_from (iscased c) r
  end.

Definition title (s : pystr) : pystr := title_from false s.

(** [re.sub(r'[^\w\s]', '', s)]: every character that is neither a word
    character nor white space is deleted. *)
Definition keeps (c : ascii) : bool := isword c || isspace c.

Definition sub_non_word_space (s : pystr) : pystr := List.filter keeps s.

(** The separator of [text.split('.')]. *)
Definition period : ascii := ".".

(** [s.split(sep)] for a separator of one character: the pieces between
    the occurrences of [sep], empty pieces included; never an empty list. *)
Fixpoint split_on (sep : ascii) (s : pystr) : list pystr :=
  match s with
  | [] => [[]]
  | c :: r =>
      if Ascii.eqb c sep then [] :: split_on sep r
      else match split_on sep r with
           | piece :: pieces => (c :: piece) :: pieces
           | [] => [[c]]
           end
  end.

(** [s.split()]: the maximal runs of characters that are not white space.
    [word] is the run being read, in reverse. *)
Fixpoint split_from (word : pystr) (s : pystr) : list pystr :=
  match s with
  | [] => match word with [] => [] | _ => [rev word] end
  | c :: r =>
      if isspace c
      then match word with
           | [] => split_from [] r
           | _ => rev word :: split_from [] r
           end
      else split_from (c :: word) r
  end.

Definition split (s : pystr) : list pystr := split_from [] s.

(** [s.strip()] *)
Fixpoint lstrip (s : pystr) : pystr :=
  match s with
  | [] => []
  | c :: r => if isspace c then lstrip r else s
  end.

Definition rstrip (s : pystr) : pystr := rev (lstrip (rev s)).

Definition strip (s : pystr) : pystr := rstrip (lstrip s).

(** [s[:n]] *)
Definition slice_to (n : nat) (s : pystr) : pystr := take n s.

(** [str(n)] for a natural number. *)
Definition str_of_nat (n : nat) : pystr :=
  py (NilEmpty.string_of_uint (Nat.to_uint n)).

(** [a == b] *)
Definition str_eqb (a b : pystr) : bool := bool_decide (a = b).

(** [x in l] for a list or set of strings. *)
Definition mem (x : pystr) (l : list pystr) : bool := existsb (str_eqb x) l.

Fixpoint starts_with (p s : pystr) : bool :=
  match p, s with
  | [], _ => true
  | a :: p', b :: s' => Ascii.eqb a b && starts_with p' s'
  | _ :: _, [] => false
  end.

(** [sub in s] for strings. *)
Fixpoint contains (sub s : pystr) : bool :=
  starts_with sub s ||
  match s with
  | [] => false
  | _ :: r => contains sub r
  end.

(** [sub] occurs in [s] as a contiguous run: what [contains] decides. *)
Definition occurs_in (sub s : pystr) : Prop :=
  ∃ before after, s = before ++ sub ++ after.

End PyStr.
Export PyStr.

(** ** The interpreter's services *)

(** The global generator of the module [random]. *)
Class Random := {
  rng : Type;
  randbelow : nat → rng → nat * rng
}.

(** The contract of [Random._randbelow]: an integer of [range(n)]. *)
Definition randbelow_in_range `{Random} : Prop :=
  ∀ n g, 0 < n → (randbelow n g).1 < n.

(** [list(set(l))]: the elements of [l] in the order of the hash set. *)
Class HashSetOrder := {
  set_order : list pystr → list pystr
}.

(** What every enumeration of a set has: each element once. *)
Definition set_order_ok `{HashSetOrder} : Prop :=
  ∀ l, NoDup (set_order l) ∧ ∀ x, x ∈ set_order l ↔ x ∈ l.

(** ** Computations that draw random numbers and may raise *)
Module Eff.

Definition M `{Random} (A : Type) : Type := rng → option (A * rng).

#[export] Instance M_ret `{Random} : MRet M := λ A x g, Some (x, g).

#[export] Instance M_bind `{Random} : MBind M := λ A B f m g,
  match m g with
  | Some (x, g') => f x g'
  | None => None
  end.

(** An exception: the computation stops without a result. *)
Definition raise `{Random} {A : Type} : M A := λ _, None.

Definition rand `{Random} (n : nat) : M nat := λ g, Some (randbelow n g).

(** [l[i]], an [IndexError] out of range. *)
Definition getitem `{Random} {A : Type} (l : list A) (i : nat) : M A :=
  match l !! i with
  | Some x => mret x
  | None => raise
  end.

(** [random.choice(seq)] *)
Definition choice `{Random} {A : Type} (seq : list A) : M A :=
  match seq with
  | [] => raise
  | _ => j ← rand (length seq); getitem seq j
  end.

(** [random.sample(population, k)], for a population of at most 21
    elements: the selection is made in a copy [pool] of the population,
    [for i in range(k): j = randbelow(n - i); result[i] = pool[j];
    pool[j] = pool[n - i - 1]].  [todo] counts the rounds that remain. *)
Fixpoint sample_loop `{Random} {A : Type}
    (n todo i : nat) (pool : list A) : M (list A) :=
  match todo with
  | 0 => mret []
  | S todo' =>
      j ← rand (n - i);
      picked ← getitem pool j;
      moved ← getitem pool (n - i - 1);
      result ← sample_loop n todo' (S i) (<[j := moved]> pool);
      mret (picked :: result)
  end.

Definition sample `{Random} {A : Type} (population : list A) (k : nat)
    : M (list A) :=
  let n := length population in
  if k <=? n then sample_loop n k 0 population else raise.

(** [random.shuffle(x)]:
    [for i in reversed(range(1, len(x))): j = randbelow(i + 1);
    x[i], x[j] = x[j], x[i]]. *)
Fixpoint shuffle_loop `{Random} {A : Type} (i : nat) (x : list A)
    : M (list A) :=
  match i with
  | 0 => mret x
  | S i' =>
      j ← rand (i + 1);
      xj ← getitem x j;
      xi ← getitem x i;
      shuffle_loop i' (<[j := xi]> (<[i := xj]> x))
  end.

Definition shuffle `{Random} {A : Type} (x : list A) : M (list A) :=
  shuffle_loop (length x - 1) x.

(** [l.index(v)]: the first position of [v], a [ValueError] if absent. *)
Definition index `{Random} (v : pystr) (l : list pystr) : M nat :=
  match list_find (λ y, y = v) l with
  | Some (i, _) => mret i
  | None => raise
  end.

End Eff.
Export Eff.

(** ** The generator *)

(** [self.question_starters] *)
Definition question_starters : list pystr := [
  py "What is"; py "How does"; py "Why is"; py "When did"; py "Where does";
  py "Which"; py "Who was"; py "What are the main"; py "How can";
  py "What would happen if"
].

(** [self.essay_prompts] *)
Definition essay_prompts : list pystr := [
  py "Analyze the main concepts discussed in the text and explain their significance.";
  py "Compare and contrast the key ideas presented and provide your own perspective.";
  py "Discuss the implications of the information provided and its real-world applications.";
  py "Evaluate the arguments presented and provide supporting evidence for your viewpoint.";
  py "Examine the relationship between the different concepts mentioned in the text.";
  py "Critically assess the topic and propose potential solutions or improvements.";
  py "Explore the historical context and evolution of the subject matter.";
  py "Investigate the causes and effects of the phenomena described in the text."
].

Definition stop_words : list pystr := [
  py "the"; py "a"; py "an"; py "and"; py "or"; py "but"; py "in"; py "on";
  py "at"; py "to"; py "for";
  py "of"; py "with"; py "by"; py "is"; py "are"; py "was"; py "were";
  py "be"; py "been"; py "being";
  py "have"; py "has"; py "had"; py "do"; py "does"; py "did"; py "will";
  py "would"; py "could";
  py "should"; py "may"; py "might"; py "must"; py "can"; py "this";
  py "that"; py "these"; py "those"
].

(** The text once cleaned: [re.sub(r'[^\w\s]', '', text.lower())]. *)
Definition clean (text : pystr) : pystr := sub_non_word_space (lower text).

(** [len(s.strip()) > 10] *)
Definition long_enough (s : pystr) : bool := 10 <? length (strip s).

(** [len(word) > 4 and word not in stop_words] *)
Definition important (word : pystr) : bool :=
  (4 <? length word) && negb (mem word stop_words).

(** The list [key_words] of [extract_key_phrases]. *)
Definition important_words (text : pystr) : list pystr :=
  List.filter important (split (clean text)).

Definition extract_key_phrases `{HashSetOrder} (text : pystr)
    : list pystr * list pystr :=
  let text := clean text in
  let sentences := map strip (List.filter long_enough (split_on period text)) in
  let words := split text in
  let key_words := List.filter important words in
  let unique_words := take 10 (set_order key_words) in
  (sentences, unique_words).

(** The sentence added to a prompt when there are key words. *)
Definition focus_on (key_concept : pystr) : pystr :=
  py " Focus particularly on the concept of '" ++ key_concept
    ++ py "' mentioned in the material.".

(** The body of the loop of [generate_assignment_questions]. *)
Definition customize `{Random} (key_words : list pystr) (prompt : pystr)
    : M pystr :=
  match key_words with
  | [] => mret prompt
  | _ =>
      key_word ← choice key_words;
      mret (prompt ++ focus_on (title key_word))
  end.

Definition labelled (i : nat) (customized_prompt : pystr) : pystr :=
  py "Assignment " ++ str_of_nat (i + 1) ++ py ": " ++ customized_prompt.

(** [for i, prompt in enumerate(selected_prompts)], from [i] on. *)
Fixpoint assignments_from `{Random} (key_words : list pystr) (i : nat)
    (selected_prompts : list pystr) : M (list pystr) :=
  match selected_prompts with
  | [] => mret []
  | prompt :: rest =>
      customized_prompt ← customize key_words prompt;
      assignments ← assignments_from key_words (S i) rest;
      mret (labelled i customized_prompt :: assignments)
  end.

Definition generate_assignment_questions `{Random}
    (text : pystr) (key_words : list pystr) : M (list pystr) :=
  selected_prompts ← sample essay_prompts (2 `min` length essay_prompts);
  assignments_from key_words 0 selected_prompts.

Record quiz_question := {
  question : pystr;
  options : list pystr;
  correct : nat;
  explanation : pystr
}.

(** The single question returned when there is nothing to work with. *)
Definition no_content_question : quiz_question := {|
  question := py "Based on the provided text, what is the main topic discussed?";
  options := [py "Option A"; py "Option B"; py "Option C"; py "Option D"];
  correct := 0;
  explanation := py "This is a general comprehension question."
|}.

(** The question of the [else] branch of the loop. *)
Definition fallback_question (i : nat) : quiz_question := {|
  question := py "Question " ++ str_of_nat (i + 1)
                ++ py ": What can be inferred from the given text?";
  options := [
    py "The text provides comprehensive information";
    py "The text is completely unrelated to the topic";
    py "The text contains no useful information";
    py "The text is written in a foreign language"
  ];
  correct := 0;
  explanation := py "This question tests reading comprehension."
|}.

Definition distractors : list pystr := [
  py "It refers to a completely different concept";
  py "It is not mentioned in the provided text";
  py "It only appears in the conclusion"
].

Definition question_text (question_starter key_word : pystr) : pystr :=
  question_starter ++ py " " ++ title key_word ++ py " mentioned in the text?".

Definition correct_option_of (key_word sentence : pystr) : pystr :=
  title key_word ++ py " is related to " ++ slice_to 50 sentence ++ py "...".

(** The body of [for i in range(3)]. *)
Definition quiz_question_at `{Random}
    (sentences key_words : list pystr) (i : nat) : M quiz_question :=
  if (i <? length sentences) && negb (bool_decide (key_words = [])) then
    sentence ← getitem sentences i;
    key_word ← choice key_words;
    question_starter ← choice question_starters;
    let correct_option := correct_option_of key_word sentence in
    shuffled ← shuffle (correct_option :: distractors);
    correct_index ← index correct_option shuffled;
    mret {|
      question := question_text question_starter key_word;
      options := shuffled;
      correct := correct_index;
      explanation :=
        py "The correct answer relates to the context provided in the text."
    |}
  else mret (fallback_question i).

(** [for i in range(lo, lo + count)], the results in order. *)
Fixpoint for_range `{Random} {A : Type} (body : nat → M A) (lo count : nat)
    : M (list A) :=
  match count with
  | 0 => mret []
  | S count' =>
      x ← body lo;
      xs ← for_range body (S lo) count';
      mret (x :: xs)
  end.

Definition generate_quiz_questions `{Random}
    (sentences key_words : list pystr) : M (list quiz_question) :=
  match sentences, key_words with
  | [], _ | _, [] => mret [no_content_question]
  | _, _ => for_range (quiz_question_at sentences key_words) 0 3
  end.

Definition generate_content `{Random} `{HashSetOrder} (input_text : pystr)
    : M (list pystr * list quiz_question) :=
  match strip input_text with
  | [] => mret ([], [])
  | _ =>
      let '(sentences, key_words) := extract_key_phrases input_text in
      assignments ← generate_assignment_questions input_text key_words;
      quiz_questions ← generate_quiz_questions sentences key_words;
      mret (assignments, quiz_questions)
  end.
(** ** The display of the assignments in [main] *)

(** [s.replace(old, new)]: the occurrences of [old] are replaced from left
    to right, an occurrence starting where the previous one ended at the
    earliest.  [skip] counts the characters of a replaced occurrence that
    are still to be passed over. *)
Fixpoint replace_from (old new : pystr) (skip : nat) (s : pystr) : pystr :=
  match s with
  | [] => []
  | c :: r =>
      match skip with
      | S skip' => replace_from old new skip' r
      | 0 =>
          if starts_with old s
          then new ++ replace_from old new (length old - 1) r
          else c :: replace_from old new 0 r
      end
  end.

(** With an empty [old], [new] is put before every character and at the
    end. *)
Definition replace (old new s : pystr) : pystr :=
  match old with
  | [] => new ++ flat_map (λ c, c :: new) s
  | _ => replace_from old new 0 s
  end.

(** [assignment.replace(f"Assignment {i+1}: ", "")], what [main] writes
    under the heading of the assignment at index [i]. *)
Definition displayed_assignment (i : nat) (assignment : pystr) : pystr :=
  replace (py "Assignment " ++ str_of_nat (i + 1) ++ py ": ") [] assignment.

(** A lowercase word character: a digit, a lowercase letter or the
    underscore. *)
Definition lower_word_char (c : ascii) : bool := isword c && negb (isupper c).

(** ** What the loop bodies establish *)

(** [customized_prompt] is what the loop of [generate_assignment_questions]
    makes of [prompt]: the prompt itself when there is no key word, the
    prompt followed by the sentence on one of the key words otherwise. *)
Definition customized_from (key_words : list pystr)
    (prompt customized_prompt : pystr) : Prop :=
  match key_words with
  | [] => customized_prompt = prompt
  | _ => ∃ key_word, key_word ∈ key_words ∧
           customized_prompt = prompt ++ focus_on (title key_word)
  end.

(** [q] is a question of the [if] branch of the loop of
    [generate_quiz_questions] at index [i]: built from the sentence at [i],
    one key word and one starter; the option at [correct q] is the correct
    option, which contains the key word in title case, and the three other
    options are the distractors in some order. *)
Definition made_from (sentences key_words : list pystr) (i : nat)
    (q : quiz_question) : Prop :=
  ∃ sentence key_word question_starter,
    sentences !! i = Some sentence ∧
    key_word ∈ key_words ∧
    question_starter ∈ question_starters ∧
    question q = question_text question_starter key_word ∧
    options q !! correct q = Some (correct_option_of key_word sentence) ∧
    contains (title key_word) (correct_option_of key_word sentence) = true ∧
    delete (correct q) (options q) ≡ₚ distractors ∧
    explanation q =
      py "The correct answer relates to the context provided in the text.".

(** The question at index [i] of the loop: of the [if] branch while there
    is a sentence at [i], of the [else] branch after that. *)
Definition question_at_index (sentences key_words : list pystr) (i : nat)
    (q : quiz_question) : Prop :=
  if decide (i < length sentences)
  then made_from sentences key_words i q
  else q = fallback_question i.

(** ** The sample text of [main] *)

(** The lines of the literal; a line feed stands between two of them. *)
Definition sample_lines : list pystr := [
  py "";
  py "        Photosynthesis is the process by which plants convert sunlight, carbon dioxide, and water into glucose and oxygen. ";
  py "        This process occurs in the chloroplasts of plant cells and involves two main stages: the light reactions and the Calvin cycle. ";
  py "        During light reactions, chlorophyll absorbs sunlight and converts it into chemical energy in the form of ATP and NADPH. ";
  py "        The Calvin cycle uses this energy to convert carbon dioxide into glucose. Photosynthesis is essential for life on Earth ";
  py "        as it produces oxygen and serves as the foundation of most food chains. Factors affecting photosynthesis include light intensity, ";
  py "        carbon dioxide concentration, and temperature. Understanding photosynthesis is crucial for agriculture and environmental science.";
  py "        "
].

Definition line_feed : ascii := ascii_of_nat 10.

Fixpoint join_lines (lines : list pystr) : pystr :=
  match lines with
  | [] => []
  | [l] => l
  | l :: rest => l ++ line_feed :: join_lines rest
  end.

Definition sample_text : pystr := join_lines sample_lines.

(** ** Two interpreters to run the generator in *)

(** A generator whose state is a counter: the [g]-th draw of [range(n)]
    is [g mod n]. *)
Definition counting : Random := {|
  rng := nat;
  randbelow n g := (g `mod` n, S g)
|}.

(** A set that enumerates its elements in the order of their last
    occurrence in the list it was made from, and one that enumerates them
    the other way round. *)
Definition listed : HashSetOrder := {| set_order := remove_dups |}.

Definition listed_backwards : HashSetOrder :=
  {| set_order l := reverse (remove_dups l) |}.

(** * Properties *)

(** ** The library functions on examples *)

Example lower_ex : lower (py "Earth, ATP!") = py "earth, atp!".
Proof. reflexivity. Qed.

Example sub_non_word_space_ex :
  sub_non_word_space (py "a.b, c_d: e-f") = py "ab c_d ef".
Proof. reflexivity. Qed.

Example split_on_ex :
  split_on period (py "a.b..c.") = [py "a"; py "b"; py ""; py "c"; py ""].
Proof. reflexivity. Qed.

Example split_ex : split (py "  ab   c d ") = [py "ab"; py "c"; py "d"].
Proof. reflexivity. Qed.

Example strip_ex : strip (py "  a b  ") = py "a b".
Proof. reflexivity. Qed.

Example title_ex : title (py "co2_level") = py "Co2_Level".
Proof. reflexivity. Qed.

Example str_of_nat_ex : str_of_nat 12 = py "12".
Proof. reflexivity. Qed.

Example contains_ex :
  contains (py "Water") (py "Water is related to plants...") = true.
Proof. reflexivity. Qed.

(** The text "Cats." has no sentence and no key word: one generic
    question, and two prompts without the sentence on a key word. *)
Example cats_ex :
  @extract_key_phrases listed (py "Cats.") = ([], []) ∧
  @generate_content counting listed (py "Cats.") 5
    = Some (([labelled 0 (py "Critically assess the topic and propose potential solutions or improvements.");
              labelled 1 (py "Explore the historical context and evolution of the subject matter.")],
             [no_content_question]), 7).
Proof. split; reflexivity. Qed.


(** ** Computations *)
Section computations.
Context `{Random}.

Lemma bind_run {A B} (m : M A) (f : A → M B) g x g' :
  m g = Some (x, g') → (m ≫= f) g = f x g'.
Proof. unfold mbind, M_bind. by intros ->. Qed.

Lemma bind_Some {A B} (m : M A) (f : A → M B) g r :
  (m ≫= f) g = Some r ↔ ∃ x g', m g = Some (x, g') ∧ f x g' = Some r.
Proof.
  unfold mbind, M_bind. split.
  - destruct (m g) as [[x g']|]; [eauto|done].
  - by intros (x & g' & -> & ?).
Qed.

Lemma ret_run {A} (x : A) g : mret (M := M) x g = Some (x, g).
Proof. done. Qed.

Lemma getitem_run {A} (l : list A) i x g :
  l !! i = Some x → getitem l i g = Some (x, g).
Proof. unfold getitem. by intros ->. Qed.

Lemma getitem_Some {A} (l : list A) i g x g' :
  getitem l i g = Some (x, g') → l !! i = Some x ∧ g' = g.
Proof.
  unfold getitem. destruct (l !! i); [|done].
  rewrite ret_run. by intros [= -> ->].
Qed.

Lemma index_run (v : pystr) l g :
  v ∈ l → ∃ i, index v l g = Some (i, g) ∧ l !! i = Some v.
Proof.
  intros Hv. unfold index.
  destruct (list_find_elem_of (λ y, y = v) l v Hv eq_refl) as [[i y] Hf].
  rewrite Hf. apply list_find_Some in Hf as (Hi & -> & _). by exists i.
Qed.

Lemma index_Some (v : pystr) l g i g' :
  index v l g = Some (i, g') → l !! i = Some v ∧ g' = g.
Proof.
  unfold index. destruct (list_find _ l) as [[j y]|] eqn:Hf; [|done].
  rewrite ret_run. intros [= -> ->].
  by apply list_find_Some in Hf as (? & -> & _).
Qed.

Lemma delete_insert_same {A} (l : list A) i x :
  delete i (<[i := x]> l) = delete i l.
Proof. revert i. induction l; intros [|i]; simpl; f_equal; auto. Qed.

Section in_range.
Hypothesis Hrand : randbelow_in_range.

Lemma rand_run n g :
  0 < n → ∃ j g', rand n g = Some (j, g') ∧ j < n.
Proof.
  intros Hn. unfold rand. destruct (randbelow n g) as [j g'] eqn:Hj.
  exists j, g'. split; [done|].
  specialize (Hrand n g Hn). by rewrite Hj in Hrand.
Qed.

Lemma choice_run {A} (seq : list A) g :
  seq ≠ [] → ∃ x g', choice seq g = Some (x, g') ∧ x ∈ seq.
Proof.
  intros Hne. destruct seq as [|a seq']; [done|].
  set (l := a :: seq') in *. unfold choice. fold l.
  destruct (rand_run (length l) g) as (j & g' & Hj & Hlt); [simpl; lia|].
  destruct (lookup_lt_is_Some_2 l j Hlt) as [x Hx].
  exists x, g'. split; [|by eapply list_elem_of_lookup_2].
  cbn [l]. fold l. rewrite (bind_run _ _ _ _ _ Hj).
  by apply getitem_run.
Qed.

(** A round of [random.sample] takes one element out of the live part
    of the pool. *)
Lemma sample_round {A} (pool : list A) m j picked moved :
  j < S m →
  pool !! j = Some picked →
  pool !! m = Some moved →
  take (S m) pool ≡ₚ picked :: take m (<[j := moved]> pool).
Proof.
  intros Hj Hp Hm.
  assert (<[j := moved]> pool !! m = Some moved) as Hlast.
  { destruct (decide (j = m)) as [->|].
    - apply list_lookup_insert_eq. by eapply lookup_lt_Some.
    - by rewrite list_lookup_insert_ne. }
  rewrite (delete_Permutation (take (S m) pool) j picked)
    by (by rewrite lookup_take_lt).
  f_equiv. apply (inj (moved ::.)).
  rewrite <-(delete_insert_same _ j moved), <-take_insert_lt by done.
  rewrite <-delete_Permutation.
  - rewrite (take_S_r _ _ _ Hlast). symmetry. apply Permutation_cons_append.
  - rewrite lookup_take_lt by done. apply list_lookup_insert_eq.
    by eapply lookup_lt_Some.
Qed.
Lemma sample_loop_run {A} n todo i (pool : list A) g :
  todo ≤ n - i → n - i ≤ length pool → NoDup (take (n - i) pool) →
  ∃ result g',
    sample_loop n todo i pool g = Some (result, g') ∧
    length result = todo ∧ NoDup result ∧
    ∀ x, x ∈ result → x ∈ take (n - i) pool.
Proof.
  revert i pool g.
  induction todo as [|todo IH]; intros i pool g Htodo Hlen Hnd.
  { exists [], g. split_and!; [done|done|constructor|].
    intros x Hx. by apply elem_of_nil in Hx. }
  destruct (n - i) as [|m] eqn:Hm; [lia|].
  destruct (rand_run (S m) g) as (j & g1 & Hj & Hlt); [lia|].
  destruct (lookup_lt_is_Some_2 pool j) as [picked Hp]; [lia|].
  destruct (lookup_lt_is_Some_2 pool m) as [moved Hmv]; [lia|].
  pose proof (sample_round pool m j picked moved Hlt Hp Hmv) as Hround.
  assert (n - S i = m) as Hm' by lia.
  rewrite Hround in Hnd. apply NoDup_cons in Hnd as [Hfresh Hnd].
  destruct (IH (S i) (<[j := moved]> pool) g1) as (rest & g' & Hrun & Hl & Hr & Hin).
  { lia. }
  { rewrite length_insert. lia. }
  { by rewrite Hm'. }
  rewrite Hm' in Hin.
  exists (picked :: rest), g'. split_and!.
  - cbn [sample_loop]. rewrite Hm.
    rewrite (bind_run _ _ _ _ _ Hj).
    rewrite (bind_run _ _ _ _ _ (getitem_run _ _ _ _ Hp)).
    replace (S m - 1) with m by lia.
    rewrite (bind_run _ _ _ _ _ (getitem_run _ _ _ _ Hmv)).
    by rewrite (bind_run _ _ _ _ _ Hrun).
  - simpl. by rewrite Hl.
  - apply NoDup_cons. split; [|done]. intros Hx. by apply Hfresh, Hin.
  - intros x Hx. rewrite Hround.
    apply elem_of_cons in Hx as [->|Hx]; [left|right; auto].
Qed.

Lemma sample_run {A} (population : list A) k g :
  k ≤ length population → NoDup population →
  ∃ result g',
    sample population k g = Some (result, g') ∧
    length result = k ∧ NoDup result ∧
    ∀ x, x ∈ result → x ∈ population.
Proof.
  intros Hk Hnd. unfold sample.
  rewrite (proj2 (Nat.leb_le _ _) Hk).
  destruct (sample_loop_run (length population) k 0 population g)
    as (result & g' & Hrun & Hl & Hr & Hin).
  - lia.
  - lia.
  - by rewrite Nat.sub_0_r, firstn_all.
  - exists result, g'. split_and!; [done..|].
    intros x Hx. apply Hin in Hx.
    by rewrite Nat.sub_0_r, firstn_all in Hx.
Qed.

Lemma shuffle_loop_run {A} i (x : list A) g :
  i ≤ length x - 1 →
  ∃ x' g', shuffle_loop i x g = Some (x', g') ∧ x' ≡ₚ x.
Proof.
  revert x g. induction i as [|i IH]; intros x g Hi.
  { by exists x, g. }
  destruct (rand_run (S i + 1) g) as (j & g1 & Hj & Hlt); [lia|].
  destruct (lookup_lt_is_Some_2 x j) as [xj Hxj]; [lia|].
  destruct (lookup_lt_is_Some_2 x (S i)) as [xi Hxi]; [lia|].
  destruct (IH (<[j := xi]> (<[S i := xj]> x)) g1) as (x' & g' & Hrun & Hperm).
  { rewrite !length_insert. lia. }
  exists x', g'. split.
  - cbn [shuffle_loop].
    rewrite (bind_run _ _ _ _ _ Hj).
    rewrite (bind_run _ _ _ _ _ (getitem_run _ _ _ _ Hxj)).
    by rewrite (bind_run _ _ _ _ _ (getitem_run _ _ _ _ Hxi)).
  - rewrite Hperm. by apply Permutation_insert_swap.
Qed.

Lemma shuffle_run {A} (x : list A) g :
  ∃ x' g', shuffle x g = Some (x', g') ∧ x' ≡ₚ x.
Proof. by apply shuffle_loop_run. Qed.
End in_range.
End computations.

(** ** Strings *)
Section strings.
Implicit Types s t sub : pystr.

Lemma occurs_in_cons sub c s : occurs_in sub s → occurs_in sub (c :: s).
Proof. intros (b & a & ->). by exists (c :: b), a. Qed.

Lemma occurs_in_trans s t u : occurs_in s t → occurs_in t u → occurs_in s u.
Proof.
  intros (b1 & a1 & ->) (b2 & a2 & ->).
  exists (b2 ++ b1), (a1 ++ a2). by rewrite <-!(assoc (++)).
Qed.

Lemma starts_with_app sub after : starts_with sub (sub ++ after) = true.
Proof.
  induction sub as [|c sub IH]; [done|]. simpl.
  by rewrite Ascii.eqb_refl, IH.
Qed.

Lemma contains_occurs sub s : occurs_in sub s → contains sub s = true.
Proof.
  intros (before & after & ->).
  induction before as [|c before IH].
  - change ([] ++ sub ++ after) with (sub ++ after).
    pose proof (starts_with_app sub after) as Hs.
    destruct (sub ++ after); simpl; by rewrite Hs.
  - simpl. rewrite IH. apply orb_true_r.
Qed.

Lemma mem_elem_of (x : pystr) l : mem x l = true ↔ x ∈ l.
Proof.
  unfold mem. rewrite existsb_exists. setoid_rewrite <-list_elem_of_In.
  unfold str_eqb. split.
  - by intros (y & Hy & ->%bool_decide_eq_true).
  - intros Hx. exists x. by rewrite bool_decide_eq_true.
Qed.

Lemma important_spec (w : pystr) :
  important w = true ↔ 4 < length w ∧ w ∉ stop_words.
Proof.
  unfold important.
  rewrite andb_true_iff, Nat.ltb_lt, negb_true_iff.
  rewrite <-mem_elem_of. by destruct (mem w stop_words); intuition.
Qed.

(** *** [split_on] *)
Lemma split_on_absent sep s : sep ∉ s → split_on sep s = [s].
Proof.
  induction s as [|c s IH]; intros Hsep; [done|].
  apply not_elem_of_cons in Hsep as [Hne Hsep]. simpl.
  rewrite (proj2 (Ascii.eqb_neq c sep)) by done.
  by rewrite IH.
Qed.

Lemma split_on_pieces sep s :
  ∃ piece pieces,
    split_on sep s = piece :: pieces ∧
    (∃ after, s = piece ++ after) ∧
    ∀ p, p ∈ pieces → occurs_in p s.
Proof.
  induction s as [|c s (piece & pieces & IH & [after Hpre] & Hin)].
  { exists [], []. split_and!; [done|by exists []|].
    intros p Hp. by apply elem_of_nil in Hp. }
  simpl. destruct (Ascii.eqb c sep).
  - exists [], (split_on sep s). split_and!; [done|by eexists|].
    intros p Hp. apply occurs_in_cons. rewrite IH in Hp.
    apply elem_of_cons in Hp as [->|Hp]; [|auto].
    exists [], after. by rewrite Hpre at 1.
  - rewrite IH. exists (c :: piece), pieces. split_and!; [done| |].
    + exists after. by rewrite Hpre at 1.
    + intros p Hp. by apply occurs_in_cons, Hin.
Qed.

Lemma split_on_occurs sep s p : p ∈ split_on sep s → occurs_in p s.
Proof.
  destruct (split_on_pieces sep s) as (piece & pieces & -> & [after Hpre] & Hin).
  intros [->|Hp]%elem_of_cons; [|auto].
  exists [], after. by rewrite Hpre at 1.
Qed.

(** *** [strip] *)
Lemma lstrip_suffix s : ∃ before, s = before ++ lstrip s.
Proof.
  induction s as [|c s [before IH]]; [by exists []|]. simpl.
  destruct (isspace c); [|by exists []].
  exists (c :: before). by rewrite IH at 1.
Qed.

Lemma lstrip_idemp s : lstrip (lstrip s) = lstrip s.
Proof.
  induction s as [|c s IH]; [done|]. simpl.
  destruct (isspace c) eqn:Hc; [done|]. simpl. by rewrite Hc.
Qed.

Lemma lstrip_app_black s c :
  isspace c = false → lstrip (s ++ [c]) = lstrip s ++ [c].
Proof.
  intros Hc. induction s as [|d s IH]; simpl; [by rewrite Hc|].
  by destruct (isspace d).
Qed.

Lemma rstrip_cons_black c s :
  isspace c = false → rstrip (c :: s) = c :: rstrip s.
Proof.
  intros Hc. unfold rstrip. simpl.
  by rewrite lstrip_app_black, rev_app_distr.
Qed.

Lemma rstrip_idemp s : rstrip (rstrip s) = rstrip s.
Proof. unfold rstrip. by rewrite rev_involutive, lstrip_idemp. Qed.

Lemma strip_idemp s : strip (strip s) = strip s.
Proof.
  unfold strip. destruct (lstrip s) as [|c t] eqn:Ht; [done|].
  assert (isspace c = false) as Hc.
  { pose proof (lstrip_idemp s) as Hi. rewrite Ht in Hi. simpl in Hi.
    destruct (isspace c); [|done].
    destruct (lstrip_suffix t) as [before Hb].
    apply (f_equal length) in Hi. rewrite Hb in Hi at 2.
    simpl in Hi. rewrite length_app in Hi. lia. }
  rewrite rstrip_cons_black by done. simpl. rewrite Hc.
  by rewrite rstrip_cons_black, rstrip_idemp.
Qed.

Lemma strip_occurs s : occurs_in (strip s) s.
Proof.
  unfold strip, rstrip.
  destruct (lstrip_suffix s) as [before Hb].
  destruct (lstrip_suffix (rev (lstrip s))) as [after Ha].
  exists before, (rev after).
  rewrite <-rev_app_distr, <-Ha, rev_involutive. done.
Qed.

Lemma lstrip_nil s : lstrip s = [] ↔ Forall (λ c, isspace c = true) s.
Proof.
  induction s as [|c s IH]; simpl; [by split|].
  destruct (isspace c) eqn:Hc.
  - rewrite IH. split; [by constructor|by inversion 1].
  - split; [done|]. inversion 1; congruence.
Qed.

(** The strings that [strip] empties are the strings of white space. *)
Lemma strip_nil s : strip s = [] ↔ Forall (λ c, isspace c = true) s.
Proof.
  unfold strip, rstrip. rewrite <-lstrip_nil. split.
  - intros Hs. apply (f_equal (@rev ascii)) in Hs.
    rewrite rev_involutive in Hs. simpl in Hs.
    apply lstrip_nil in Hs.
    rewrite <-lstrip_idemp. apply lstrip_nil.
    apply Forall_forall. intros c Hc.
    apply (proj1 (Forall_forall _ _) Hs).
    by rewrite list_elem_of_In, <-in_rev, <-list_elem_of_In.
  - by intros ->.
Qed.

(** *** The cleaned text *)
Lemma clean_no_period text : period ∉ clean text.
Proof.
  unfold clean, sub_non_word_space.
  rewrite list_elem_of_In, filter_In. by intros [_ ?].
Qed.

Lemma split_clean text : split_on period (clean text) = [clean text].
Proof. apply split_on_absent, clean_no_period. Qed.
End strings.

(** ** The quiz loop *)
Section quiz.
Context `{Random}.
Hypothesis Hrand : randbelow_in_range.

Ltac run H := rewrite (bind_run _ _ _ _ _ H); cbv beta zeta.

Lemma for_range_run {A} (body : nat → M A) (P : nat → A → Prop) :
  (∀ i g, ∃ x g', body i g = Some (x, g') ∧ P i x) →
  ∀ count lo g, ∃ xs g',
    for_range body lo count g = Some (xs, g') ∧
    length xs = count ∧
    ∀ k x, xs !! k = Some x → P (lo + k) x.
Proof.
  intros Hbody.
  induction count as [|count IH]; intros lo g.
  { exists [], g. split_and!; [done..|]. intros k x Hk. by destruct k. }
  destruct (Hbody lo g) as (x & g1 & Hx & HP).
  destruct (IH (S lo) g1) as (xs & g' & Hxs & Hlen & HPs).
  exists (x :: xs), g'. split_and!.
  - cbn [for_range]. run Hx. by run Hxs.
  - simpl. by rewrite Hlen.
  - intros [|k] y Hk; simplify_eq/=.
    + by rewrite Nat.add_0_r.
    + rewrite <-Nat.add_succ_comm. by apply HPs.
Qed.

Lemma quiz_question_at_run sentences key_words i g :
  key_words ≠ [] →
  ∃ q g',
    quiz_question_at sentences key_words i g = Some (q, g') ∧
    length (options q) = 4 ∧ correct q < 4 ∧
    question_at_index sentences key_words i q.
Proof.
  intros Hkw. unfold quiz_question_at, question_at_index.
  rewrite (bool_decide_eq_false_2 _ Hkw). cbn [negb].
  rewrite andb_true_r.
  destruct (decide (i < length sentences)) as [Hi|Hi].
  2: { rewrite (proj2 (Nat.ltb_ge _ _)) by lia.
       exists (fallback_question i), g. split_and!; [done|done|simpl; lia|done]. }
  rewrite (proj2 (Nat.ltb_lt _ _) Hi).
  destruct (lookup_lt_is_Some_2 sentences i Hi) as [sentence Hs].
  destruct (choice_run Hrand key_words g Hkw) as (key_word & g1 & Hk & Hkin).
  destruct (choice_run Hrand question_starters g1) as (starter & g2 & Hq & Hqin);
    [done|].
  set (correct_option := correct_option_of key_word sentence).
  destruct (shuffle_run Hrand (correct_option :: distractors) g2)
    as (shuffled & g3 & Hsh & Hperm).
  destruct (index_run correct_option shuffled g3) as (ci & Hci & Hlook).
  { rewrite Hperm. by left. }
  eexists _, g3. split_and!.
  - run (getitem_run sentences i sentence g Hs). run Hk. run Hq.
    fold correct_option. run Hsh. run Hci. reflexivity.
  - cbn [options]. by rewrite Hperm.
  - cbn [options correct]. apply lookup_lt_Some in Hlook.
    by rewrite Hperm in Hlook.
  - exists sentence, key_word, starter. cbn [question options correct explanation].
    split_and!; try done.
    + apply contains_occurs. by exists [], (py " is related to " ++ slice_to 50 sentence ++ py "...").
    + apply (inj (correct_option ::.)).
      by rewrite <-Hperm, <-delete_Permutation.
Qed.

(** The two paths of [generate_quiz_questions]. *)
Lemma generate_quiz_questions_run sentences key_words g :
  ∃ qs g',
    generate_quiz_questions sentences key_words g = Some (qs, g') ∧
    if decide (sentences = [] ∨ key_words = [])
    then qs = [no_content_question] ∧ g' = g
    else ∃ q0 q1 q2,
           qs = [q0; q1; q2] ∧
           Forall (λ q, length (options q) = 4 ∧ correct q < 4) qs ∧
           question_at_index sentences key_words 0 q0 ∧
           question_at_index sentences key_words 1 q1 ∧
           question_at_index sentences key_words 2 q2.
Proof.
  unfold generate_quiz_questions.
  destruct sentences as [|s0 ss]; [|destruct key_words as [|k0 ks]].
  - exists [no_content_question], g.
    case_decide as Hd; [by destruct key_words|destruct Hd; auto].
  - exists [no_content_question], g.
    case_decide as Hd; [done|destruct Hd; auto].
  - case_decide as Hd; [by destruct Hd|]. clear Hd.
    set (sentences := s0 :: ss). set (key_words := k0 :: ks).
    destruct (for_range_run (quiz_question_at sentences key_words)
                (λ i q, length (options q) = 4 ∧ correct q < 4 ∧
                        question_at_index sentences key_words i q)
                (λ i g, quiz_question_at_run sentences key_words i g
                          ltac:(done)) 3 0 g)
      as (qs & g' & Hrun & Hlen & HP).
    exists qs, g'. split; [done|].
    destruct qs as [|q0 [|q1 [|q2 [|]]]]; try done.
    exists q0, q1, q2.
    pose proof (HP 0 q0 eq_refl) as (? & ? & ?).
    pose proof (HP 1 q1 eq_refl) as (? & ? & ?).
    pose proof (HP 2 q2 eq_refl) as (? & ? & ?).
    split_and!; try done. by repeat apply Forall_cons_2.
Qed.
End quiz.

(** ** The two interpreters keep the contracts *)

Lemma counting_in_range : @randbelow_in_range counting.
Proof. intros n g Hn. simpl. apply Nat.mod_upper_bound. lia. Qed.

Lemma listed_ok : @set_order_ok listed.
Proof.
  intros l. split; [apply NoDup_remove_dups|].
  intros x. apply elem_of_remove_dups.
Qed.

Lemma listed_backwards_ok : @set_order_ok listed_backwards.
Proof.
  intros l. simpl. split.
  - rewrite reverse_Permutation. apply NoDup_remove_dups.
  - intros x. by rewrite elem_of_reverse, elem_of_remove_dups.
Qed.

(** ** The catalogue of prompts *)

Lemma essay_prompts_NoDup : NoDup essay_prompts.
Proof. apply (bool_decide_unpack _). by vm_compute. Qed.

Lemma customize_run `{Random} (Hrand : randbelow_in_range) key_words prompt g :
  ∃ customized_prompt g',
    customize key_words prompt g = Some (customized_prompt, g') ∧
    customized_from key_words prompt customized_prompt.
Proof.
  destruct key_words as [|k0 ks]; [by exists prompt, g|].
  destruct (choice_run Hrand (k0 :: ks) g) as (key_word & g' & Hk & Hin); [done|].
  exists (prompt ++ focus_on (title key_word)), g'. split.
  - unfold customize. cbv iota. by rewrite (bind_run _ _ _ _ _ Hk).
  - by exists key_word.
Qed.

(** * The properties of the specification *)

(** C1, evaluated on the sample text of [main].  The cleaned text has no
    period left, so the sample is one sentence, not five or more; with the
    counting generator the second and third questions are those of the
    [else] branch, and no important word of the sample, in title case,
    occurs in their correct option. *)
Theorem sample_text_is_one_sentence :
  (@extract_key_phrases listed sample_text).1 = [strip (clean sample_text)] ∧
  (∃ q0 g',
     @generate_quiz_questions counting
       (@extract_key_phrases listed sample_text).1
       (@extract_key_phrases listed sample_text).2 0
     = Some ([q0; fallback_question 1; fallback_question 2], g')) ∧
  Forall (λ w, Forall (λ o, contains (title w) o = false)
                 (options (fallback_question 1)))
    (important_words sample_text).
Proof.
  split_and!.
  - by vm_compute.
  - eexists _, _. by vm_compute.
  - apply (bool_decide_unpack _). by vm_compute.
Qed.

(** C2: when [input_text.strip()] is empty, that is when the text is empty
    or made of white space only, [generate_content] returns the pair of two
    empty lists; nothing is raised, no random number is drawn (the
    generator is left as it was) and the order of the hash set plays no
    part. *)
Theorem blank_input_gives_two_empty_lists `{Random} `{HashSetOrder}
    (input_text : pystr) (g : rng) :
  strip input_text = [] →
  Forall (λ c, isspace c = true) input_text ∧
  generate_content input_text g = Some (([], []), g).
Proof.
  intros Hblank. split; [by apply strip_nil|].
  unfold generate_content. by rewrite Hblank.
Qed.

(** The same on a concrete run. *)
Lemma blank_input_gives_two_empty_lists_witness :
  strip (py "  ") = [] ∧
  Forall (λ c, isspace c = true) (py "  ") ∧
  @generate_content counting listed (py "  ") 7 = Some (([], []), 7).
Proof.
  split; [reflexivity|].
  apply (@blank_input_gives_two_empty_lists counting listed (py "  ") 7).
  reflexivity.
Defined.

(** C3: [generate_quiz_questions] returns one question, the fixed one with
    four generic options, correct index 0 and a generic explanation, when
    [sentences] or [key_words] is empty, and three questions otherwise. *)
Theorem one_question_or_three `{Random} (Hrand : randbelow_in_range)
    (sentences key_words : list pystr) (g : rng) :
  ∃ qs g',
    generate_quiz_questions sentences key_words g = Some (qs, g') ∧
    (sentences = [] ∨ key_words = [] → qs = [no_content_question]) ∧
    (sentences ≠ [] → key_words ≠ [] → length qs = 3) ∧
    length (options no_content_question) = 4 ∧
    correct no_content_question = 0 ∧
    explanation no_content_question
      = py "This is a general comprehension question.".
Proof.
  destruct (generate_quiz_questions_run Hrand sentences key_words g)
    as (qs & g' & Hrun & Hqs).
  exists qs, g'. split_and!; [done| | |done..].
  - intros Hempty. rewrite decide_True in Hqs by done. by destruct Hqs.
  - intros Hs Hk. rewrite decide_False in Hqs by (by intros [?|?]).
    by destruct Hqs as (q0 & q1 & q2 & -> & _).
Qed.

(** The same on a concrete run. *)
Lemma one_question_or_three_witness :
  @randbelow_in_range counting ∧
  ∃ qs g',
    @generate_quiz_questions counting [py "a sentence of the text"] [py "sentence"] 0
      = Some (qs, g') ∧
    ([py "a sentence of the text"] = [] ∨ [py "sentence"] = []
       → qs = [no_content_question]) ∧
    ([py "a sentence of the text"] ≠ [] → [py "sentence"] ≠ [] → length qs = 3) ∧
    length (options no_content_question) = 4 ∧
    correct no_content_question = 0 ∧
    explanation no_content_question
      = py "This is a general comprehension question.".
Proof.
  split; [exact counting_in_range|].
  apply (@one_question_or_three counting counting_in_range).
Defined.

(** C4: [generate_assignment_questions] returns two prompts, the first
    starting with "Assignment 1: " and the second with "Assignment 2: ";
    what follows the label is made of two different entries of the
    catalogue of eight, each followed by the sentence on a key word exactly
    when there are key words. *)
Theorem two_labelled_prompts `{Random} (Hrand : randbelow_in_range)
    (text : pystr) (key_words : list pystr) (g : rng) :
  ∃ prompt1 prompt2 customized1 customized2 g',
    generate_assignment_questions text key_words g
      = Some ([py "Assignment 1: " ++ customized1;
               py "Assignment 2: " ++ customized2], g') ∧
    prompt1 ∈ essay_prompts ∧ prompt2 ∈ essay_prompts ∧
    prompt1 ≠ prompt2 ∧ length essay_prompts = 8 ∧
    customized_from key_words prompt1 customized1 ∧
    customized_from key_words prompt2 customized2.
Proof.
  destruct (sample_run Hrand essay_prompts 2 g) as (sel & g1 & Hsel & Hlen & Hnd & Hin).
  { simpl. lia. }
  { apply essay_prompts_NoDup. }
  destruct sel as [|prompt1 [|prompt2 [|]]]; try done.
  destruct (customize_run Hrand key_words prompt1 g1) as (c1 & g2 & Hc1 & Hf1).
  destruct (customize_run Hrand key_words prompt2 g2) as (c2 & g3 & Hc2 & Hf2).
  exists prompt1, prompt2, c1, c2, g3. split_and!; try done.
  - unfold generate_assignment_questions.
    change (2 `min` length essay_prompts) with 2.
    assert (assignments_from key_words 1 [prompt2] g2
            = Some ([labelled 1 c2], g3)) as Hrest.
    { cbn [assignments_from]. by rewrite (bind_run _ _ _ _ _ Hc2). }
    rewrite (bind_run _ _ _ _ _ Hsel). cbn [assignments_from].
    rewrite (bind_run _ _ _ _ _ Hc1). by rewrite (bind_run _ _ _ _ _ Hrest).
  - apply Hin. by left.
  - apply Hin. right. by left.
  - apply NoDup_cons in Hnd as [Hne _]. intros ->. apply Hne. by left.
Qed.

(** The same on a concrete run. *)
Lemma two_labelled_prompts_witness :
  @randbelow_in_range counting ∧
  ∃ prompt1 prompt2 customized1 customized2 g',
    @generate_assignment_questions counting (py "alpha bravo") [py "alpha"] 3
      = Some ([py "Assignment 1: " ++ customized1;
               py "Assignment 2: " ++ customized2], g') ∧
    prompt1 ∈ essay_prompts ∧ prompt2 ∈ essay_prompts ∧
    prompt1 ≠ prompt2 ∧ length essay_prompts = 8 ∧
    customized_from [py "alpha"] prompt1 customized1 ∧
    customized_from [py "alpha"] prompt2 customized2.
Proof.
  split; [exact counting_in_range|].
  apply (@two_labelled_prompts counting counting_in_range).
Defined.

(** C5: every question returned by [generate_quiz_questions] has four
    options and a correct index below 4.  The questions of the two fixed
    forms have their correct option at index 0; a question of the [if]
    branch of the loop has at its correct index the option synthesised from
    the selected key word, which contains that key word in title case, and
    its three other options are the distractors in some order. *)
Theorem every_question_has_four_options `{Random}
    (Hrand : randbelow_in_range)
    (sentences key_words : list pystr) (g : rng) :
  ∃ qs g',
    generate_quiz_questions sentences key_words g = Some (qs, g') ∧
    ∀ i q, qs !! i = Some q →
      length (options q) = 4 ∧ correct q < 4 ∧
      if decide (sentences = [] ∨ key_words = [])
      then q = no_content_question
      else question_at_index sentences key_words i q.
Proof.
  destruct (generate_quiz_questions_run Hrand sentences key_words g)
    as (qs & g' & Hrun & Hqs).
  exists qs, g'. split; [done|]. intros i q Hq.
  destruct (decide (sentences = [] ∨ key_words = [])) as [Hempty|Hfull].
  - destruct Hqs as [-> _]. destruct i as [|[|]]; simplify_eq/=.
    split_and!; [done|lia|done].
  - destruct Hqs as (q0 & q1 & q2 & -> & Hwf & H0 & H1 & H2).
    pose proof (proj1 (Forall_lookup _ _) Hwf i q Hq) as [? ?].
    split_and!; [done..|].
    by destruct i as [|[|[|]]]; simplify_eq/=.
Qed.

(** The same on a concrete run. *)
Lemma every_question_has_four_options_witness :
  @randbelow_in_range counting ∧
  ∃ qs g',
    @generate_quiz_questions counting
      [py "force equals mass times acceleration"] [py "force"; py "acceleration"] 4
      = Some (qs, g') ∧
    ∀ i q, qs !! i = Some q →
      length (options q) = 4 ∧ correct q < 4 ∧
      if decide ([py "force equals mass times acceleration"] = [] ∨
                 [py "force"; py "acceleration"] = [])
      then q = no_content_question
      else question_at_index [py "force equals mass times acceleration"]
             [py "force"; py "acceleration"] i q.
Proof.
  split; [exact counting_in_range|].
  apply (@every_question_has_four_options counting counting_in_range).
Defined.

(** C6: every key term returned by [extract_key_phrases] is longer than 4
    characters and is none of the 39 stop words; the list has no duplicate
    and at most 10 entries, and it is no longer than the list of the
    distinct important words of the text. *)
Theorem key_terms_are_distinct_long_words `{HashSetOrder}
    (Hset : set_order_ok) (text : pystr) :
  let key_terms := (extract_key_phrases text).2 in
  (∀ w, w ∈ key_terms → 4 < length w ∧ w ∉ stop_words) ∧
  length stop_words = 39 ∧
  NoDup key_terms ∧
  length key_terms ≤ 10 ∧
  length key_terms ≤ length (remove_dups (important_words text)).
Proof.
  cbn [extract_key_phrases snd]. fold (important_words text).
  destruct (Hset (important_words text)) as [Hnd Hin].
  assert (∀ w, w ∈ take 10 (set_order (important_words text)) →
               w ∈ important_words text) as Hsub.
  { intros w Hw. by apply Hin, (subseteq_take 10). }
  assert (NoDup (take 10 (set_order (important_words text)))) as Hnd10.
  { eapply sublist_NoDup; [exact Hnd|apply sublist_take]. }
  split_and!.
  - intros w Hw%Hsub. apply important_spec.
    unfold important_words in Hw.
    rewrite list_elem_of_In, filter_In in Hw. by destruct Hw.
  - done.
  - done.
  - rewrite length_take. lia.
  - apply submseteq_length, NoDup_submseteq; [done|].
    intros w Hw%Hsub. by apply elem_of_remove_dups.
Qed.

(** The same on a concrete run. *)
Lemma key_terms_are_distinct_long_words_witness :
  @set_order_ok listed ∧
  let key_terms :=
    (@extract_key_phrases listed (py "Plants convert sunlight; plants grow.")).2 in
  (∀ w, w ∈ key_terms → 4 < length w ∧ w ∉ stop_words) ∧
  length stop_words = 39 ∧
  NoDup key_terms ∧
  length key_terms ≤ 10 ∧
  length key_terms ≤ length (remove_dups
    (important_words (py "Plants convert sunlight; plants grow."))).
Proof.
  split; [exact listed_ok|].
  apply (@key_terms_are_distinct_long_words listed listed_ok).
Defined.

(** C7: every sentence returned by [extract_key_phrases] is longer than 10
    characters, is trimmed, and is the trimmed form of a fragment of the
    cleaned (lowered, punctuation-free) text, in which it occurs; a
    fragment whose trimmed length is 10 or less is not in the list, trimmed
    or not. *)
Theorem sentences_are_long_trimmed_fragments `{HashSetOrder} (text : pystr) :
  let sentences := (extract_key_phrases text).1 in
  (∀ s, s ∈ sentences →
     10 < length s ∧ strip s = s ∧ occurs_in s (clean text) ∧
     ∃ fragment, fragment ∈ split_on period (clean text) ∧ s = strip fragment) ∧
  (∀ fragment, fragment ∈ split_on period (clean text) →
     length (strip fragment) ≤ 10 →
     (fragment ∉ sentences) ∧ (strip fragment ∉ sentences)).
Proof.
  cbn [extract_key_phrases fst].
  assert (∀ s, s ∈ map strip (List.filter long_enough (split_on period (clean text))) →
            ∃ fragment, fragment ∈ split_on period (clean text) ∧
                        s = strip fragment ∧ 10 < length s) as Hsent.
  { intros s (fragment & -> & Hf)%list_elem_of_fmap.
    rewrite list_elem_of_In, filter_In, <-list_elem_of_In in Hf.
    destruct Hf as [Hf Hlong]. exists fragment. split_and!; [done..|].
    by apply Nat.ltb_lt. }
  split.
  - intros s (fragment & Hf & -> & Hlong)%Hsent. split_and!.
    + done.
    + apply strip_idemp.
    + eapply occurs_in_trans; [apply strip_occurs|].
      by eapply split_on_occurs.
    + by exists fragment.
  - intros fragment _ Hshort. split.
    + intros (f & _ & -> & Hlong)%Hsent. rewrite strip_idemp in Hshort. lia.
    + intros (f & _ & Heq & Hlong)%Hsent. lia.
Qed.

(** C8 as stated fails: the same text and the same generator state give
    two different outputs in two interpreters whose hash sets enumerate the
    key words in different orders. *)
Lemma same_seed_two_outputs :
  @randbelow_in_range counting ∧
  @set_order_ok listed ∧ @set_order_ok listed_backwards ∧
  @generate_content counting listed (py "alpha bravo") 0
    ≠ @generate_content counting listed_backwards (py "alpha bravo") 0.
Proof.
  split_and!;
    [exact counting_in_range|exact listed_ok|exact listed_backwards_ok|].
  vm_compute. discriminate.
Qed.

(** C8, amended: two runs on the same text, from the same generator state,
    in interpreters whose hash sets enumerate the important words of the
    text in the same order, return the same result. *)
Theorem same_seed_same_order_same_output `{Random}
    (run1 run2 : HashSetOrder) (text1 text2 : pystr) (g1 g2 : rng) :
  text1 = text2 → g1 = g2 →
  @set_order run1 (important_words text1)
    = @set_order run2 (important_words text2) →
  @generate_content _ run1 text1 g1 = @generate_content _ run2 text2 g2.
Proof.
  intros <- <- Horder. unfold generate_content, extract_key_phrases.
  fold (important_words text1). by rewrite Horder.
Qed.

(** The same on a concrete run. *)
Lemma same_seed_same_order_same_output_witness :
  py "Alpha bravo" = py "Alpha bravo" ∧ 5 = 5 ∧
  @set_order listed (important_words (py "Alpha bravo"))
    = @set_order listed (important_words (py "Alpha bravo")) ∧
  @generate_content counting listed (py "Alpha bravo") 5
    = @generate_content counting listed (py "Alpha bravo") 5.
Proof.
  split_and!; [reflexivity..|].
  apply (@same_seed_same_order_same_output counting listed listed
           (py "Alpha bravo") (py "Alpha bravo") 5 5); reflexivity.
Defined.

(** C9: the cleaned text has no period, so [extract_key_phrases] returns at
    most one sentence; hence, on the path of [generate_quiz_questions] that
    runs the loop, the questions at indices 1 and 2 are those of the [else]
    branch, whose correct index is 0. *)
Theorem at_most_one_sentence `{Random} `{HashSetOrder}
    (Hrand : randbelow_in_range) (text : pystr) :
  let sentences := (extract_key_phrases text).1 in
  (period ∉ clean text) ∧
  length sentences ≤ 1 ∧
  ∀ key_words g, sentences ≠ [] → key_words ≠ [] →
    ∃ q0 g',
      generate_quiz_questions sentences key_words g
        = Some ([q0; fallback_question 1; fallback_question 2], g') ∧
      correct (fallback_question 1) = 0 ∧ correct (fallback_question 2) = 0.
Proof.
  cbn [extract_key_phrases fst]. rewrite split_clean.
  set (sentences := map strip (List.filter long_enough [clean text])).
  assert (length sentences ≤ 1) as Hone.
  { unfold sentences. simpl. destruct (long_enough (clean text)); simpl; lia. }
  split_and!; [apply clean_no_period|done|].
  intros key_words g Hs Hk.
  destruct (generate_quiz_questions_run Hrand sentences key_words g)
    as (qs & g' & Hrun & Hqs).
  rewrite decide_False in Hqs by (by intros [?|?]).
  destruct Hqs as (q0 & q1 & q2 & -> & _ & _ & H1 & H2).
  unfold question_at_index in H1, H2.
  rewrite decide_False in H1 by lia. rewrite decide_False in H2 by lia.
  subst q1 q2.
  by exists q0, g'.
Qed.

(** The same on a concrete run. *)
Lemma at_most_one_sentence_witness :
  @randbelow_in_range counting ∧
  let sentences := (@extract_key_phrases listed sample_text).1 in
  (period ∉ clean sample_text) ∧
  length sentences ≤ 1 ∧
  ∀ key_words g, sentences ≠ [] → key_words ≠ [] →
    ∃ q0 g',
      @generate_quiz_questions counting sentences key_words g
        = Some ([q0; fallback_question 1; fallback_question 2], g') ∧
      correct (fallback_question 1) = 0 ∧ correct (fallback_question 2) = 0.
Proof.
  split; [exact counting_in_range|].
  apply (@at_most_one_sentence counting listed counting_in_range sample_text).
Defined.

(** C10: [generate_assignment_questions] does not read [text]: with the
    same key words and the same generator state, two texts give the same
    assignments (and leave the generator in the same state). *)
Theorem assignments_ignore_text `{Random}
    (text1 text2 : pystr) (key_words : list pystr) (g : rng) :
  generate_assignment_questions text1 key_words g
    = generate_assignment_questions text2 key_words g.
Proof. reflexivity. Qed.

(** * Further properties of the generator *)

(** ** Characters *)

Ltac by_cases_on c :=
  destruct c as [[] [] [] [] [] [] [] []]; vm_compute; try done; auto.

Lemma lower_char_idemp c : lower_char (lower_char c) = lower_char c.
Proof. by_cases_on c. Qed.


Lemma isupper_lower_char c : isupper (lower_char c) = false.
Proof. by_cases_on c. Qed.

Lemma isword_lower_char c : isword (lower_char c) = isword c.
Proof. by_cases_on c. Qed.

Lemma isspace_lower_char c : isspace (lower_char c) = isspace c.
Proof. by_cases_on c. Qed.

Lemma lower_char_fixed c : isupper c = false → lower_char c = c.
Proof. unfold lower_char. by intros ->. Qed.

Lemma isword_not_space c : isword c = true → isspace c = false.
Proof. by_cases_on c. Qed.

Lemma lower_char_colon c : lower_char c = ":"%char → c = ":"%char.
Proof. by_cases_on c. Qed.

Lemma upper_char_colon c : upper_char c = ":"%char → c = ":"%char.
Proof. by_cases_on c. Qed.

Lemma isword_colon c : isword c = true → c ≠ ":"%char.
Proof. by_cases_on c. Qed.

(** ** Cleaning, splitting and title case *)

Lemma occurs_in_elem_of (sub s : pystr) c : occurs_in sub s → c ∈ sub → c ∈ s.
Proof. intros (before & after & ->) Hc. rewrite !elem_of_app. auto. Qed.

Lemma clean_chars text c :
  c ∈ clean text → keeps c = true ∧ isupper c = false.
Proof.
  unfold clean, sub_non_word_space, lower.
  rewrite list_elem_of_In, filter_In, <-list_elem_of_In, list_elem_of_fmap.
  intros [(c0 & -> & _) Hk]. split; [done|apply isupper_lower_char].
Qed.

Lemma lower_fixed (s : pystr) :
  Forall (λ c, isupper c = false) s → lower s = s.
Proof.
  induction 1 as [|c s Hc _ IH]; [done|].
  unfold lower in *. simpl. by rewrite IH, lower_char_fixed.
Qed.

Lemma lower_idemp (s : pystr) : lower (lower s) = lower s.
Proof.
  unfold lower. rewrite <-list_fmap_compose. apply list_fmap_ext.
  intros _ c _. apply lower_char_idemp.
Qed.

Lemma clean_lower text : clean (lower text) = clean text.
Proof. unfold clean. by rewrite lower_idemp. Qed.

Lemma filter_idemp {A} (f : A → bool) l :
  List.filter f (List.filter f l) = List.filter f l.
Proof.
  induction l as [|x l IH]; [done|]. simpl.
  destruct (f x) eqn:Hx; [|done]. simpl. by rewrite Hx, IH.
Qed.

Lemma clean_idemp text : clean (clean text) = clean text.
Proof.
  assert (lower (clean text) = clean text) as Hl.
  { apply lower_fixed, Forall_forall. intros c Hc. by apply clean_chars in Hc as [_ ?]. }
  unfold clean at 1. rewrite Hl. unfold clean, sub_non_word_space.
  apply filter_idemp.
Qed.

(** The words of [split]: runs of the string without white space. *)
Lemma split_from_words word s w :
  Forall (λ c, isspace c = false) word →
  w ∈ split_from word s →
  occurs_in w (rev word ++ s) ∧ Forall (λ c, isspace c = false) w.
Proof.
  revert word. induction s as [|c s IH]; intros word Hword Hw.
  - simpl in Hw. destruct word as [|d word]; [by apply elem_of_nil in Hw|].
    apply list_elem_of_singleton in Hw as ->. split.
    + exists [], []. by rewrite app_nil_r.
    + apply Forall_forall. intros x Hx. apply list_elem_of_In, in_rev, list_elem_of_In in Hx.
      by apply (proj1 (Forall_forall _ _) Hword).
  - simpl in Hw. destruct (isspace c) eqn:Hc.
    + assert (w ∈ split_from [] s →
              occurs_in w (rev word ++ c :: s) ∧ Forall (λ c, isspace c = false) w)
        as Hrest.
      { intros Hrest. apply (IH []) in Hrest as [Hocc ?]; [|done].
        simpl in Hocc. destruct Hocc as (b & a & ->). split; [|done].
        exists (rev word ++ c :: b), a. simpl. by rewrite <-!(assoc (++)). }
      destruct word as [|d word]; [auto|].
      apply elem_of_cons in Hw as [->|Hw]; [|auto]. split.
      * by exists [], (c :: s).
      * apply Forall_forall. intros x Hx.
        apply list_elem_of_In, in_rev, list_elem_of_In in Hx.
        by apply (proj1 (Forall_forall _ _) Hword).
    + apply IH in Hw; [|by constructor].
      simpl in Hw. by rewrite <-(assoc (++)) in Hw.
Qed.

Lemma split_words s w :
  w ∈ split s → occurs_in w s ∧ Forall (λ c, isspace c = false) w.
Proof. intros Hw. by apply (split_from_words [] s w) in Hw. Qed.

Lemma split_blank s : Forall (λ c, isspace c = true) s → split s = [].
Proof.
  unfold split. induction 1 as [|c s Hc _ IH]; [done|].
  simpl. by rewrite Hc.
Qed.

(** The characters of an important word of a text. *)
Lemma important_words_chars text w :
  w ∈ important_words text →
  occurs_in w (clean text) ∧ Forall (λ c, lower_word_char c = true) w.
Proof.
  unfold important_words.
  rewrite list_elem_of_In, filter_In, <-list_elem_of_In.
  intros [[Hocc Hblack]%split_words _]. split; [done|].
  apply Forall_forall. intros c Hc.
  pose proof (proj1 (Forall_forall _ _) Hblack c Hc) as Hsp.
  destruct (clean_chars text c) as [Hk Hup];
    [by eapply occurs_in_elem_of|].
  unfold lower_word_char, keeps in *. rewrite Hsp, orb_false_r in Hk.
  by rewrite Hk, Hup.
Qed.



Lemma title_from_no_colon b (s : pystr) :
  ":"%char ∉ s → ":"%char ∉ title_from b s.
Proof.
  revert b. induction s as [|c s IH]; intros b Hs; [done|].
  apply not_elem_of_cons in Hs as [Hc Hs]. simpl.
  apply not_elem_of_cons. split; [|by apply IH].
  destruct b; intros Heq; symmetry in Heq.
  - by apply lower_char_colon in Heq.
  - by apply upper_char_colon in Heq.
Qed.

(** ** [replace] *)

Lemma starts_with_elem_of (old s : pystr) c :
  starts_with old s = true → c ∈ old → c ∈ s.
Proof.
  revert s. induction old as [|a old IH]; intros s Hs Hc.
  { by apply elem_of_nil in Hc. }
  destruct s as [|b s]; [done|]. simpl in Hs.
  apply andb_true_iff in Hs as [Hab Hs]. apply Ascii.eqb_eq in Hab as ->.
  apply elem_of_cons in Hc as [->|Hc]; [left|right; eauto].
Qed.

Lemma replace_from_absent (old new s : pystr) c :
  c ∈ old → c ∉ s → replace_from old new 0 s = s.
Proof.
  intros Hold. induction s as [|d s IH]; intros Hs; [done|].
  cbn [replace_from].
  destruct (starts_with old (d :: s)) eqn:Hst.
  { destruct Hs. by eapply starts_with_elem_of. }
  rewrite IH; [done|]. by apply not_elem_of_cons in Hs as [_ ?].
Qed.

Lemma replace_from_skip (old new passed s : pystr) :
  replace_from old new (length passed) (passed ++ s) = replace_from old new 0 s.
Proof. induction passed as [|c passed IH]; [done|]. simpl. apply IH. Qed.

Lemma replace_from_prefix (old new s : pystr) :
  old ≠ [] →
  replace_from old new 0 (old ++ s) = new ++ replace_from old new 0 s.
Proof.
  intros Hold. destruct old as [|a old]; [done|].
  change ((a :: old) ++ s) with (a :: (old ++ s)) at 1.
  cbn [replace_from].
  change (a :: (old ++ s)) with ((a :: old) ++ s).
  rewrite starts_with_app. f_equal.
  replace (length (a :: old) - 1) with (length old) by (simpl; lia).
  apply replace_from_skip.
Qed.

(** ** The two outputs of [extract_key_phrases] *)

Lemma sentences_of `{HashSetOrder} text :
  (extract_key_phrases text).1
    = if long_enough (clean text) then [strip (clean text)] else [].
Proof.
  cbn [extract_key_phrases fst]. rewrite split_clean. simpl.
  by destruct (long_enough (clean text)).
Qed.

Lemma key_terms_of `{HashSetOrder} (Hset : set_order_ok) text :
  (∀ w, w ∈ (extract_key_phrases text).2 → w ∈ important_words text) ∧
  ((extract_key_phrases text).2 = [] ↔ important_words text = []).
Proof.
  cbn [extract_key_phrases snd]. fold (important_words text).
  destruct (Hset (important_words text)) as [_ Hin]. split.
  - intros w Hw. by apply Hin, (subseteq_take 10).
  - split.
    + intros Hnil. destruct (important_words text) as [|w ws]; [done|].
      assert (w ∈ set_order (w :: ws)) as Hw by (apply Hin; left).
      destruct (set_order (w :: ws)); [by apply elem_of_nil in Hw|done].
    + intros Hnil. rewrite Hnil in *.
      destruct (set_order []) as [|w ws] eqn:Hs; [done|].
      assert (w ∈ ([] : list pystr)) as Hw by (apply Hin; left).
      by apply elem_of_nil in Hw.
Qed.

(** ** The pipeline *)

Lemma assignments_run `{Random} (Hrand : randbelow_in_range)
    (text : pystr) (key_words : list pystr) (g : rng) :
  ∃ prompt1 prompt2 customized1 customized2 g',
    generate_assignment_questions text key_words g
      = Some ([labelled 0 customized1; labelled 1 customized2], g') ∧
    prompt1 ∈ essay_prompts ∧ prompt2 ∈ essay_prompts ∧ prompt1 ≠ prompt2 ∧
    customized_from key_words prompt1 customized1 ∧
    customized_from key_words prompt2 customized2.
Proof.
  destruct (sample_run Hrand essay_prompts 2 g)
    as (sel & g1 & Hsel & Hlen & Hnd & Hin);
    [simpl; lia|apply essay_prompts_NoDup|].
  destruct sel as [|prompt1 [|prompt2 [|]]]; try done.
  destruct (customize_run Hrand key_words prompt1 g1) as (c1 & g2 & Hc1 & Hf1).
  destruct (customize_run Hrand key_words prompt2 g2) as (c2 & g3 & Hc2 & Hf2).
  exists prompt1, prompt2, c1, c2, g3. split_and!; try done.
  - unfold generate_assignment_questions.
    change (2 `min` length essay_prompts) with 2.
    assert (assignments_from key_words 1 [prompt2] g2
            = Some ([labelled 1 c2], g3)) as Hrest.
    { cbn [assignments_from]. by rewrite (bind_run _ _ _ _ _ Hc2). }
    rewrite (bind_run _ _ _ _ _ Hsel). cbn [assignments_from].
    rewrite (bind_run _ _ _ _ _ Hc1). by rewrite (bind_run _ _ _ _ _ Hrest).
  - apply Hin. by left.
  - apply Hin. right. by left.
  - apply NoDup_cons in Hnd as [Hne _]. intros ->. apply Hne. by left.
Qed.

(** A run of [generate_content] on a text that is not blank: the
    assignments, then the questions. *)
Lemma generate_content_run `{Random} `{HashSetOrder}
    (Hrand : randbelow_in_range) (text : pystr) (g : rng) :
  strip text ≠ [] →
  ∃ prompt1 prompt2 customized1 customized2 qs g1 g',
    generate_content text g
      = Some (([labelled 0 customized1; labelled 1 customized2], qs), g') ∧
    prompt1 ∈ essay_prompts ∧ prompt2 ∈ essay_prompts ∧ prompt1 ≠ prompt2 ∧
    customized_from (extract_key_phrases text).2 prompt1 customized1 ∧
    customized_from (extract_key_phrases text).2 prompt2 customized2 ∧
    generate_quiz_questions (extract_key_phrases text).1
      (extract_key_phrases text).2 g1 = Some (qs, g').
Proof.
  intros Hblank.
  destruct (extract_key_phrases text) as [sentences key_words] eqn:He.
  cbn [fst snd].
  destruct (assignments_run Hrand text key_words g)
    as (p1 & p2 & c1 & c2 & g1 & Ha & ? & ? & ? & ? & ?).
  destruct (generate_quiz_questions_run Hrand sentences key_words g1)
    as (qs & g' & Hq & _).
  exists p1, p2, c1, c2, qs, g1, g'. split_and!; try done.
  unfold generate_content. destruct (strip text); [done|]. rewrite He.
  rewrite (bind_run _ _ _ _ _ Ha). by rewrite (bind_run _ _ _ _ _ Hq).
Qed.

(** ** Properties of [extract_key_phrases] *)






(** X6 ([extract_key_phrases]): letter case and punctuation play no part;
    the text lowered, and the text cleaned beforehand, give the result of
    the text itself. *)
Theorem extraction_ignores_case_and_punctuation `{HashSetOrder}
    (text : pystr) :
  extract_key_phrases (lower text) = extract_key_phrases text ∧
  extract_key_phrases (clean text) = extract_key_phrases text.
Proof.
  unfold extract_key_phrases. by rewrite clean_lower, clean_idemp.
Qed.

(** X7 ([extract_key_phrases]): a text without any word character (blank,
    or white space and punctuation only) has no sentence and no key
    term. *)
Theorem no_word_character_no_phrase `{HashSetOrder}
    (Hset : set_order_ok) (text : pystr) :
  Forall (λ c, isword c = false) text →
  extract_key_phrases text = ([], []).
Proof.
  intros Hpunct.
  assert (Forall (λ c, isspace c = true) (clean text)) as Hblank.
  { apply Forall_forall. intros c Hc.
    pose proof (clean_chars text c Hc) as [Hk _].
    unfold clean, sub_non_word_space, lower in Hc.
    rewrite list_elem_of_In, filter_In, <-list_elem_of_In, list_elem_of_fmap in Hc.
    destruct Hc as [(c0 & -> & Hc0) _].
    unfold keeps in Hk. rewrite isword_lower_char in Hk.
    by rewrite (proj1 (Forall_forall _ _) Hpunct c0 Hc0) in Hk. }
  assert (important_words text = []) as Hnone.
  { unfold important_words. by rewrite split_blank. }
  rewrite (surjective_pairing (extract_key_phrases text)). f_equal.
  - rewrite sentences_of. unfold long_enough.
    by rewrite (proj2 (strip_nil _) Hblank).
  - by apply (key_terms_of Hset text).
Qed.

(** The same on a concrete run. *)
Lemma no_word_character_no_phrase_witness :
  @set_order_ok listed ∧
  Forall (λ c, isword c = false) (py " ?! ... ") ∧
  @extract_key_phrases listed (py " ?! ... ") = ([], []).
Proof.
  assert (Forall (λ c, isword c = false) (py " ?! ... ")) as Hp
    by (vm_compute; repeat constructor).
  split_and!; [exact listed_ok|exact Hp|].
  apply (@no_word_character_no_phrase listed listed_ok (py " ?! ... ") Hp).
Defined.

(** ** Properties of [generate_quiz_questions] *)

Lemma correct_option_not_distractor key_word sentence :
  correct_option_of key_word sentence ∉ distractors.
Proof.
  assert (last (correct_option_of key_word sentence) = Some "."%char) as Hlast.
  { unfold correct_option_of.
    change (py "...") with (py ".." ++ ["."%char]).
    rewrite !(assoc (++)). apply last_snoc. }
  intros Hin. unfold distractors in Hin.
  repeat (apply elem_of_cons in Hin as [Heq|Hin];
          [rewrite Heq in Hlast; vm_compute in Hlast; discriminate|]).
  by apply elem_of_nil in Hin.
Qed.

(** X8 ([generate_quiz_questions]): the four options of every returned
    question are pairwise different, so the correct option stands at the
    correct index and nowhere else. *)
Theorem options_are_pairwise_different `{Random}
    (Hrand : randbelow_in_range)
    (sentences key_words : list pystr) (g : rng) :
  ∃ qs g',
    generate_quiz_questions sentences key_words g = Some (qs, g') ∧
    ∀ q, q ∈ qs →
      NoDup (options q) ∧
      ∀ j, options q !! j = options q !! correct q → j = correct q.
Proof.
  destruct (generate_quiz_questions_run Hrand sentences key_words g)
    as (qs & g' & Hrun & Hqs).
  exists qs, g'. split; [done|]. intros q Hq.
  assert (length (options q) = 4 ∧ correct q < 4 ∧ NoDup (options q))
    as (Hlen & Hc & Hnd).
  { assert (NoDup (options no_content_question)) as Hnc
      by (apply (bool_decide_unpack _); by vm_compute).
    assert (∀ i, NoDup (options (fallback_question i))) as Hfb
      by (intros i; apply (bool_decide_unpack _); by vm_compute).
    destruct (decide (sentences = [] ∨ key_words = [])) as [?|?].
    - destruct Hqs as [-> _]. apply list_elem_of_singleton in Hq as ->.
      split_and!; [done|simpl; lia|done].
    - destruct Hqs as (q0 & q1 & q2 & -> & Hwf & H0 & H1 & H2).
      pose proof (proj1 (Forall_forall _ _) Hwf q Hq) as [? ?].
      split_and!; [done..|].
      assert (∃ i, question_at_index sentences key_words i q) as [i Hi].
      { repeat (apply elem_of_cons in Hq as [->|Hq]; [eauto|]).
        by apply elem_of_nil in Hq. }
      unfold question_at_index in Hi. case_decide; [|by subst q].
      destruct Hi as (s & k & st & _ & _ & _ & _ & Hlook & _ & Hperm & _).
      rewrite (delete_Permutation _ _ _ Hlook), Hperm.
      apply NoDup_cons. split; [apply correct_option_not_distractor|].
      apply (bool_decide_unpack _). by vm_compute. }
  split; [done|]. intros j Hj.
  destruct (lookup_lt_is_Some_2 (options q) (correct q)) as [o Ho]; [lia|].
  rewrite Ho in Hj. by eapply NoDup_lookup.
Qed.

(** The same on a concrete run. *)
Lemma options_are_pairwise_different_witness :
  @randbelow_in_range counting ∧
  ∃ qs g',
    @generate_quiz_questions counting
      [py "force equals mass times acceleration"] [py "force"] 2
      = Some (qs, g') ∧
    ∀ q, q ∈ qs →
      NoDup (options q) ∧
      ∀ j, options q !! j = options q !! correct q → j = correct q.
Proof.
  split; [exact counting_in_range|].
  apply (@options_are_pairwise_different counting counting_in_range).
Defined.

(** ** Properties of [generate_content] *)

(** X1 ([generate_content], and the two tests [if assignments] and
    [if quiz_questions] of [main]): on a text that is not blank the
    pipeline raises nothing and returns two assignments and one or three
    questions; neither list is empty. *)
Theorem nonblank_input_gives_both_lists `{Random} `{HashSetOrder}
    (Hrand : randbelow_in_range) (input_text : pystr) (g : rng) :
  strip input_text ≠ [] →
  ∃ assignments quiz_questions g',
    generate_content input_text g = Some ((assignments, quiz_questions), g') ∧
    length assignments = 2 ∧
    (length quiz_questions = 1 ∨ length quiz_questions = 3).
Proof.
  intros Hblank.
  destruct (generate_content_run Hrand input_text g Hblank)
    as (p1 & p2 & c1 & c2 & qs & g1 & g' & Hrun & _ & _ & _ & _ & _ & Hq).
  exists [labelled 0 c1; labelled 1 c2], qs, g'. split_and!; [done..|].
  destruct (generate_quiz_questions_run Hrand
              (extract_key_phrases input_text).1
              (extract_key_phrases input_text).2 g1)
    as (qs' & g'' & Hq' & Hqs).
  rewrite Hq in Hq'. injection Hq' as <- <-.
  case_decide.
  - destruct Hqs as [-> _]. by left.
  - destruct Hqs as (q0 & q1 & q2 & -> & _). by right.
Qed.

(** The same on a concrete run. *)
Lemma nonblank_input_gives_both_lists_witness :
  @randbelow_in_range counting ∧
  strip (py "Cats.") ≠ [] ∧
  ∃ assignments quiz_questions g',
    @generate_content counting listed (py "Cats.") 5
      = Some ((assignments, quiz_questions), g') ∧
    length assignments = 2 ∧
    (length quiz_questions = 1 ∨ length quiz_questions = 3).
Proof.
  assert (strip (py "Cats.") ≠ []) as Hn by (vm_compute; discriminate).
  split_and!; [exact counting_in_range|exact Hn|].
  apply (@nonblank_input_gives_both_lists counting listed counting_in_range
           (py "Cats.") 5 Hn).
Defined.

(** X2 ([generate_content] through [generate_assignment_questions]): the
    two assignments of the pipeline are two different prompts of the
    catalogue under their labels; when the text has no important word they
    are the bare prompts, and otherwise each is followed by the sentence on
    the title case of an important word of the text. *)
Theorem assignments_name_words_of_the_text `{Random} `{HashSetOrder}
    (Hrand : randbelow_in_range) (Hset : set_order_ok)
    (input_text : pystr) (g : rng) :
  strip input_text ≠ [] →
  ∃ prompt1 prompt2 customized1 customized2 quiz_questions g',
    generate_content input_text g
      = Some (([py "Assignment 1: " ++ customized1;
                py "Assignment 2: " ++ customized2], quiz_questions), g') ∧
    prompt1 ∈ essay_prompts ∧ prompt2 ∈ essay_prompts ∧ prompt1 ≠ prompt2 ∧
    (important_words input_text = [] →
       customized1 = prompt1 ∧ customized2 = prompt2) ∧
    (important_words input_text ≠ [] →
       ∃ w1 w2,
         w1 ∈ important_words input_text ∧ w2 ∈ important_words input_text ∧
         customized1 = prompt1 ++ focus_on (title w1) ∧
         customized2 = prompt2 ++ focus_on (title w2)).
Proof.
  intros Hblank.
  destruct (generate_content_run Hrand input_text g Hblank)
    as (p1 & p2 & c1 & c2 & qs & g1 & g' & Hrun & ? & ? & ? & Hc1 & Hc2 & _).
  destruct (key_terms_of Hset input_text) as [Hin Hnil].
  exists p1, p2, c1, c2, qs, g'. split_and!; try done.
  - intros Hnone. apply Hnil in Hnone. rewrite Hnone in Hc1, Hc2. done.
  - intros Hsome.
    destruct (extract_key_phrases input_text).2 as [|k ks] eqn:Hk.
    { destruct Hsome. by apply Hnil. }
    destruct Hc1 as (w1 & Hw1 & ->), Hc2 as (w2 & Hw2 & ->).
    exists w1, w2. split_and!; auto.
Qed.

(** The same on a concrete run. *)
Lemma assignments_name_words_of_the_text_witness :
  @randbelow_in_range counting ∧ @set_order_ok listed ∧
  strip (py "Plants convert sunlight.") ≠ [] ∧
  ∃ prompt1 prompt2 customized1 customized2 quiz_questions g',
    @generate_content counting listed (py "Plants convert sunlight.") 1
      = Some (([py "Assignment 1: " ++ customized1;
                py "Assignment 2: " ++ customized2], quiz_questions), g') ∧
    prompt1 ∈ essay_prompts ∧ prompt2 ∈ essay_prompts ∧ prompt1 ≠ prompt2 ∧
    (important_words (py "Plants convert sunlight.") = [] →
       customized1 = prompt1 ∧ customized2 = prompt2) ∧
    (important_words (py "Plants convert sunlight.") ≠ [] →
       ∃ w1 w2,
         w1 ∈ important_words (py "Plants convert sunlight.") ∧
         w2 ∈ important_words (py "Plants convert sunlight.") ∧
         customized1 = prompt1 ++ focus_on (title w1) ∧
         customized2 = prompt2 ++ focus_on (title w2)).
Proof.
  assert (strip (py "Plants convert sunlight.") ≠ []) as Hn
    by (vm_compute; discriminate).
  split_and!; [exact counting_in_range|exact listed_ok|exact Hn|].
  apply (@assignments_name_words_of_the_text counting listed
           counting_in_range listed_ok (py "Plants convert sunlight.") 1 Hn).
Defined.

(** X3 ([generate_content] through [extract_key_phrases] and
    [generate_quiz_questions]): when the cleaned text, trimmed, is longer
    than 10 characters and the text has an important word, the quiz of the
    pipeline is one question on an important word of the text, whose correct
    option quotes the beginning of the whole cleaned text, followed by the
    two questions of the [else] branch; in every other case it is the one
    generic question. *)
Theorem quiz_of_the_pipeline `{Random} `{HashSetOrder}
    (Hrand : randbelow_in_range) (Hset : set_order_ok)
    (input_text : pystr) (g : rng) :
  strip input_text ≠ [] →
  ∃ assignments quiz_questions g',
    generate_content input_text g = Some ((assignments, quiz_questions), g') ∧
    if decide (10 < length (strip (clean input_text)) ∧
               important_words input_text ≠ [])
    then ∃ q0 key_word question_starter,
           quiz_questions = [q0; fallback_question 1; fallback_question 2] ∧
           key_word ∈ important_words input_text ∧
           question_starter ∈ question_starters ∧
           question q0 = question_text question_starter key_word ∧
           options q0 !! correct q0
             = Some (correct_option_of key_word (strip (clean input_text)))
    else quiz_questions = [no_content_question].
Proof.
  intros Hblank.
  destruct (generate_content_run Hrand input_text g Hblank)
    as (p1 & p2 & c1 & c2 & qs & g1 & g' & Hrun & _ & _ & _ & _ & _ & Hq).
  exists [labelled 0 c1; labelled 1 c2], qs, g'. split; [done|].
  destruct (generate_quiz_questions_run Hrand
              (extract_key_phrases input_text).1
              (extract_key_phrases input_text).2 g1)
    as (qs' & g'' & Hq' & Hqs).
  rewrite Hq in Hq'. injection Hq' as <- <-.
  destruct (key_terms_of Hset input_text) as [Hin Hnil].
  rewrite sentences_of in Hqs. unfold long_enough in Hqs.
  destruct (decide (10 < length (strip (clean input_text)) ∧
                    important_words input_text ≠ [])) as [[Hlong Hsome]|Hno].
  - rewrite (proj2 (Nat.ltb_lt _ _) Hlong) in Hqs.
    rewrite decide_False in Hqs by (intros [?|?%Hnil]; done).
    destruct Hqs as (q0 & q1 & q2 & -> & _ & Hq0 & Hq1 & Hq2).
    unfold question_at_index in Hq0, Hq1, Hq2.
    rewrite decide_True in Hq0 by (simpl; lia).
    rewrite decide_False in Hq1 by (simpl; lia).
    rewrite decide_False in Hq2 by (simpl; lia).
    subst q1 q2.
    destruct Hq0 as (s & k & st & Hs & Hk & Hst & Hqt & Hopt & _).
    injection Hs as <-. exists q0, k, st. split_and!; auto.
  - rewrite decide_True in Hqs; [by destruct Hqs|].
    destruct (10 <? length (strip (clean input_text))) eqn:Hlong; [|by left].
    right. apply Hnil. apply Nat.ltb_lt in Hlong.
    destruct (important_words input_text); [done|]. destruct Hno. by split.
Qed.

(** The same on a concrete run. *)
Lemma quiz_of_the_pipeline_witness :
  @randbelow_in_range counting ∧ @set_order_ok listed ∧
  strip (py "Plants convert sunlight.") ≠ [] ∧
  ∃ assignments quiz_questions g',
    @generate_content counting listed (py "Plants convert sunlight.") 1
      = Some ((assignments, quiz_questions), g') ∧
    if decide (10 < length (strip (clean (py "Plants convert sunlight."))) ∧
               important_words (py "Plants convert sunlight.") ≠ [])
    then ∃ q0 key_word question_starter,
           quiz_questions = [q0; fallback_question 1; fallback_question 2] ∧
           key_word ∈ important_words (py "Plants convert sunlight.") ∧
           question_starter ∈ question_starters ∧
           question q0 = question_text question_starter key_word ∧
           options q0 !! correct q0
             = Some (correct_option_of key_word
                       (strip (clean (py "Plants convert sunlight."))))
    else quiz_questions = [no_content_question].
Proof.
  assert (strip (py "Plants convert sunlight.") ≠ []) as Hn
    by (vm_compute; discriminate).
  split_and!; [exact counting_in_range|exact listed_ok|exact Hn|].
  apply (@quiz_of_the_pipeline counting listed
           counting_in_range listed_ok (py "Plants convert sunlight.") 1 Hn).
Defined.

(** ** The display of the assignments *)

Lemma displayed_labelled i (customized_prompt : pystr) :
  ":"%char ∉ customized_prompt →
  displayed_assignment i (labelled i customized_prompt) = customized_prompt.
Proof.
  intros Hc. unfold displayed_assignment, labelled.
  remember (py "Assignment " ++ str_of_nat (i + 1) ++ py ": ") as label
    eqn:Hlabel.
  assert (":"%char ∈ label) as Hin.
  { subst label. rewrite !elem_of_app. right. right. vm_compute. left. }
  replace (py "Assignment " ++ str_of_nat (i + 1) ++ py ": " ++ customized_prompt)
    with (label ++ customized_prompt)
    by (subst label; by rewrite <-!(assoc (++))).
  assert (label ≠ []) as Hne by (intros ->; by apply elem_of_nil in Hin).
  unfold replace. destruct label as [|a label'] eqn:Hl; [done|].
  rewrite replace_from_prefix by done. simpl.
  by apply (replace_from_absent _ _ _ ":"%char).
Qed.

Lemma customized_no_colon key_words prompt customized_prompt :
  prompt ∈ essay_prompts →
  customized_from key_words prompt customized_prompt →
  (∀ w, w ∈ key_words → ":"%char ∉ w) →
  ":"%char ∉ customized_prompt.
Proof.
  intros Hp Hc Hkw.
  assert (":"%char ∉ prompt) as Hprompt.
  { assert (Forall (λ p, ":"%char ∉ p) essay_prompts) as Hall
      by (apply (bool_decide_unpack _); by vm_compute).
    by apply (proj1 (Forall_forall _ _) Hall). }
  destruct key_words as [|k ks]; [by rewrite Hc|].
  destruct Hc as (w & Hw & ->). unfold focus_on.
  rewrite !not_elem_of_app. split_and!; [done| | |].
  - apply (bool_decide_unpack _). by vm_compute.
  - unfold title. by apply title_from_no_colon, Hkw.
  - apply (bool_decide_unpack _). by vm_compute.
Qed.

(** X9 ([main], the display of the assignments, over [generate_content]):
    [assignment.replace(f"Assignment {i+1}: ", "")] removes the label of
    each assignment of the pipeline and nothing else: what is written is
    what follows the label. *)
Theorem display_removes_the_label_only `{Random} `{HashSetOrder}
    (Hrand : randbelow_in_range) (Hset : set_order_ok)
    (input_text : pystr) (g : rng) :
  strip input_text ≠ [] →
  ∃ customized1 customized2 quiz_questions g',
    generate_content input_text g
      = Some (([py "Assignment 1: " ++ customized1;
                py "Assignment 2: " ++ customized2], quiz_questions), g') ∧
    displayed_assignment 0 (py "Assignment 1: " ++ customized1) = customized1 ∧
    displayed_assignment 1 (py "Assignment 2: " ++ customized2) = customized2.
Proof.
  intros Hblank.
  destruct (generate_content_run Hrand input_text g Hblank)
    as (p1 & p2 & c1 & c2 & qs & g1 & g' & Hrun & Hp1 & Hp2 & _ & Hc1 & Hc2 & _).
  assert (∀ w, w ∈ (extract_key_phrases input_text).2 → ":"%char ∉ w) as Hkw.
  { intros w [_ Hw]%(proj1 (key_terms_of Hset input_text))%important_words_chars.
    intros Hcolon. apply (proj1 (Forall_forall _ _) Hw) in Hcolon.
    apply andb_true_iff in Hcolon as [Hword _]. by apply isword_colon in Hword. }
  exists c1, c2, qs, g'. split_and!; [done|..].
  - apply (displayed_labelled 0), (customized_no_colon _ p1 c1 Hp1 Hc1 Hkw).
  - apply (displayed_labelled 1), (customized_no_colon _ p2 c2 Hp2 Hc2 Hkw).
Qed.

(** The same on a concrete run. *)
Lemma display_removes_the_label_only_witness :
  @randbelow_in_range counting ∧ @set_order_ok listed ∧
  strip (py "Plants convert sunlight.") ≠ [] ∧
  ∃ customized1 customized2 quiz_questions g',
    @generate_content counting listed (py "Plants convert sunlight.") 1
      = Some (([py "Assignment 1: " ++ customized1;
                py "Assignment 2: " ++ customized2], quiz_questions), g') ∧
    displayed_assignment 0 (py "Assignment 1: " ++ customized1) = customized1 ∧
    displayed_assignment 1 (py "Assignment 2: " ++ customized2) = customized2.
Proof.
  assert (strip (py "Plants convert sunlight.") ≠ []) as Hn
    by (vm_compute; discriminate).
  split_and!; [exact counting_in_range|exact listed_ok|exact Hn|].
  apply (@display_removes_the_label_only counting listed
           counting_in_range listed_ok (py "Plants convert sunlight.") 1 Hn).
Defined.

(** ** More on the key terms and on letter case *)

(** X12 ([extract_key_phrases]): the number of key terms is the number of
    distinct important words of the text, capped at 10; a text with at most
    10 distinct important words loses none of them. *)
Theorem key_terms_are_counted `{HashSetOrder}
    (Hset : set_order_ok) (text : pystr) :
  length (extract_key_phrases text).2
    = 10 `min` length (remove_dups (important_words text)) ∧
  (length (remove_dups (important_words text)) ≤ 10 →
   (extract_key_phrases text).2 ≡ₚ remove_dups (important_words text)).
Proof.
  cbn [extract_key_phrases snd]. fold (important_words text).
  destruct (Hset (important_words text)) as [Hnd Hin].
  assert (set_order (important_words text)
            ≡ₚ remove_dups (important_words text)) as Hperm.
  { apply NoDup_Permutation; [done|apply NoDup_remove_dups|].
    intros w. by rewrite Hin, elem_of_remove_dups. }
  split.
  - by rewrite length_take, Hperm.
  - intros Hfew. rewrite take_ge; [done|]. by rewrite Hperm.
Qed.

(** The same on a concrete run. *)
Lemma key_terms_are_counted_witness :
  @set_order_ok listed_backwards ∧
  length (@extract_key_phrases listed_backwards
            (py "Plants convert sunlight; plants grow.")).2
    = 10 `min` length (remove_dups
        (important_words (py "Plants convert sunlight; plants grow."))) ∧
  (length (remove_dups
     (important_words (py "Plants convert sunlight; plants grow."))) ≤ 10 →
   (@extract_key_phrases listed_backwards
      (py "Plants convert sunlight; plants grow.")).2
     ≡ₚ remove_dups
          (important_words (py "Plants convert sunlight; plants grow."))).
Proof.
  split; [exact listed_backwards_ok|].
  apply (@key_terms_are_counted listed_backwards listed_backwards_ok).
Defined.

Lemma strip_lower_nil (text : pystr) : strip (lower text) = [] ↔ strip text = [].
Proof.
  rewrite !strip_nil. unfold lower. rewrite Forall_fmap.
  apply Forall_iff. intros c. simpl. by rewrite isspace_lower_char.
Qed.

(** X11 ([generate_content]): the pipeline does not see letter case; the
    text lowered gives, from the same generator state, the result of the
    text itself. *)
Theorem pipeline_ignores_case `{Random} `{HashSetOrder}
    (input_text : pystr) (g : rng) :
  generate_content (lower input_text) g = generate_content input_text g.
Proof.
  unfold generate_content.
  assert (extract_key_phrases (lower input_text)
            = extract_key_phrases input_text) as ->.
  { unfold extract_key_phrases. by rewrite clean_lower. }
  pose proof (strip_lower_nil input_text) as Hnil.
  destruct (strip (lower input_text)) as [|a l], (strip input_text) as [|b k];
    try done.
  - by pose proof (proj1 Hnil eq_refl).
  - by pose proof (proj2 Hnil eq_refl).
Qed.

(** ** [replace] on examples *)

Example replace_ex :
  replace (py "ab") (py "-") (py "abcabab") = py "-c--" ∧
  replace (py "aa") (py "b") (py "aaa") = py "ba" ∧
  replace (py "") (py "-") (py "ab") = py "-a-b-".
Proof. by vm_compute. Qed.

Example displayed_assignment_ex :
  displayed_assignment 1 (py "Assignment 2: Explore the subject.")
    = py "Explore the subject.".
Proof. by vm_compute. Qed.
